(** * Traffic-light phase controller: shallow embedding and verified properties

    Embedding of [traffic_controller.cpp].  The pure phase table
    ([computeLights], [durationForPhase], [nextNormalPhase]) is translated
    function by function.  The two threads ([controllerThread],
    [inputThread]) and the tail of [main] are translated to a small-step
    machine over one [World]: every atomic action of a thread (an atomic
    load or store of [running], a block under [st.mtx], one [sleep_for(1s)],
    one write to [std::cout]) is one step, and an execution is a list of
    [Event]s saying which thread moves next and what the environment hands
    it (a clock reading, a line of standard input or its end). *)

From Stdlib Require Import ZArith List String Bool Lia.
Import ListNotations.
Open Scope string_scope.
Open Scope list_scope.
Open Scope Z_scope.

(** ** Data model *)

(** [enum class Light] and [enum class Phase]. *)
Inductive Light : Type := Red | Yellow | Green.

Inductive Phase : Type :=
| NS_Green
| NS_Yellow
| All_Red_1
| EW_Green
| EW_Yellow
| All_Red_2
| Ped_Walk.

(** [operator==] on [Phase]. *)
Definition Phase_eqb (a b : Phase) : bool :=
  match a, b with
  | NS_Green, NS_Green | NS_Yellow, NS_Yellow | All_Red_1, All_Red_1
  | EW_Green, EW_Green | EW_Yellow, EW_Yellow | All_Red_2, All_Red_2
  | Ped_Walk, Ped_Walk => true
  | _, _ => false
  end.

(** [struct Config]: six [int] fields, in declaration order.  The fields are
    [int]; they are read and compared, never computed with, so [Z] is exact. *)
Record Config : Type := mkConfig {
  nsGreenSec  : Z;
  nsYellowSec : Z;
  ewGreenSec  : Z;
  ewYellowSec : Z;
  allRedSec   : Z;
  pedWalkSec  : Z
}.

(** The default member initialisers of [Config] ([Config cfg;] in [main]). *)
Definition defaultConfig : Config :=
  {| nsGreenSec := 10; nsYellowSec := 3; ewGreenSec := 10;
     ewYellowSec := 3; allRedSec := 1; pedWalkSec := 6 |}.

(** [struct SharedState], without the mutex and the condition variable: the
    mutex is rendered by the atomicity of the steps below, the condition
    variable is never used. *)
Record SharedState : Type := mkShared {
  phase        : Phase;
  pedRequested : bool;
  running      : bool;
  tick         : Z          (* uint64_t *)
}.

(** The default member initialisers of [SharedState]. *)
Definition initialState : SharedState :=
  {| phase := NS_Green; pedRequested := false; running := true; tick := 0 |}.

(** [struct Snapshot]. *)
Record Snapshot : Type := mkSnapshot {
  snap_phase        : Phase;
  snap_pedRequested : bool;
  snap_tick         : Z
}.

(** ** Phase table *)

Definition lightToStr (l : Light) : string :=
  match l with
  | Red => "RED"
  | Yellow => "YELLOW"
  | Green => "GREEN"
  end.

Definition phaseToStr (p : Phase) : string :=
  match p with
  | NS_Green => "NS_GREEN"
  | NS_Yellow => "NS_YELLOW"
  | All_Red_1 => "ALL_RED"
  | EW_Green => "EW_GREEN"
  | EW_Yellow => "EW_YELLOW"
  | All_Red_2 => "ALL_RED"
  | Ped_Walk => "PED_WALK"
  end.

(** The three reference parameters [ns], [ew], [walkOn] of [computeLights]. *)
Record Lights : Type := mkLights {
  ns     : Light;
  ew     : Light;
  walkOn : bool
}.

(** [computeLights]: the out-parameters are passed in and returned.
    [walkOn] is cleared first; each case then assigns [ns] and [ew], and
    [Ped_Walk] sets [walkOn] again. *)
Definition computeLights (p : Phase) (o : Lights) : Lights :=
  let o := {| ns := ns o; ew := ew o; walkOn := false |} in
  match p with
  | NS_Green  => {| ns := Green;  ew := Red;    walkOn := walkOn o |}
  | NS_Yellow => {| ns := Yellow; ew := Red;    walkOn := walkOn o |}
  | EW_Green  => {| ns := Red;    ew := Green;  walkOn := walkOn o |}
  | EW_Yellow => {| ns := Red;    ew := Yellow; walkOn := walkOn o |}
  | All_Red_1
  | All_Red_2 => {| ns := Red;    ew := Red;    walkOn := walkOn o |}
  | Ped_Walk  => {| ns := Red;    ew := Red;    walkOn := true |}
  end.

Definition durationForPhase (cfg : Config) (p : Phase) : Z :=
  match p with
  | NS_Green  => nsGreenSec cfg
  | NS_Yellow => nsYellowSec cfg
  | All_Red_1 => allRedSec cfg
  | EW_Green  => ewGreenSec cfg
  | EW_Yellow => ewYellowSec cfg
  | All_Red_2 => allRedSec cfg
  | Ped_Walk  => pedWalkSec cfg
  end.

Definition nextNormalPhase (p : Phase) : Phase :=
  match p with
  | NS_Green  => NS_Yellow
  | NS_Yellow => All_Red_1
  | All_Red_1 => EW_Green
  | EW_Green  => EW_Yellow
  | EW_Yellow => All_Red_2
  | All_Red_2 => NS_Green
  | Ped_Walk  => NS_Green
  end.

(** ** Console output *)

(** What [printStatus] inserts into [std::cout], field by field. *)
Record StatusLine : Type := mkStatus {
  sl_tick   : Z;
  sl_phase  : string;
  sl_ns     : string;
  sl_ew     : string;
  sl_walk   : string;
  sl_pedReq : string
}.

(** The locals [Light ns, ew; bool walkOn;] of [printStatus] are declared
    without initialiser; [computeLights_overwrites] below shows that their
    initial contents never reach the result. *)
Definition uninitialised : Lights :=
  {| ns := Red; ew := Red; walkOn := false |}.

Definition printStatus (s : Snapshot) : StatusLine :=
  let l := computeLights (snap_phase s) uninitialised in
  {| sl_tick   := snap_tick s;
     sl_phase  := phaseToStr (snap_phase s);
     sl_ns     := lightToStr (ns l);
     sl_ew     := lightToStr (ew l);
     sl_walk   := if walkOn l then "ON" else "OFF";
     sl_pedReq := if snap_pedRequested s then "YES" else "NO" |}.

Inductive Output : Type :=
| OutStatus (l : StatusLine)
| OutText (s : string).

(** ** The phase-boundary block of [controllerThread] *)

(** The block under [st.mtx] that ends each iteration of the controller
    loop. *)
Definition transition (st : SharedState) : SharedState :=
  let atAllRed :=
    Phase_eqb (phase st) All_Red_1 || Phase_eqb (phase st) All_Red_2 in
  if atAllRed && pedRequested st then
    {| phase := Ped_Walk; pedRequested := false;
       running := running st; tick := tick st |}
  else
    {| phase := nextNormalPhase (phase st); pedRequested := pedRequested st;
       running := running st; tick := tick st |}.

(** The handler of the line [p] in [inputThread]: [st.pedRequested = true]
    under [st.mtx]. *)
Definition requestPedestrian (st : SharedState) : SharedState :=
  {| phase := phase st; pedRequested := true;
     running := running st; tick := tick st |}.

(** [st.running.store(false)]. *)
Definition stopRunning (st : SharedState) : SharedState :=
  {| phase := phase st; pedRequested := pedRequested st;
     running := false; tick := tick st |}.

(** ** The two threads as a small-step machine *)

(** Where [controllerThread] stands.  [AtFor i holdSec] is the test
    [i < holdSec] of the hold loop followed, inside the body, by the test of
    [running]; [AtSleep i holdSec] is the [sleep_for(1s)] of iteration [i],
    reached only after that test; [AtSnap] is the locked snapshot block and
    [AtPrint snap] the code between it and the hold loop ([printStatus],
    [durationForPhase]). *)
Inductive CtlPc : Type :=
| AtEntry
| AtWhile
| AtSnap
| AtPrint (snap : Snapshot)
| AtFor (i holdSec : Z)
| AtSleep (i holdSec : Z)
| AtGate
| Returned.

(** Where [inputThread] stands: before the banner, at the loop condition,
    or past the final [st.running.store(false)]. *)
Inductive InPc : Type :=
| InEntry
| InLoop
| InExited.

(** Where [main] stands after [tInput.join()]: before its own
    [state.running.store(false)], or past it. *)
Inductive MainPc : Type :=
| MainJoinInput
| MainStored.

Record World : Type := mkWorld {
  shared : SharedState;
  ctl    : CtlPc;
  start  : Z;             (* the local [start] of [controllerThread] *)
  inp    : InPc;
  mainpc : MainPc;
  out    : list Output    (* everything written to [std::cout], in order *)
}.

Definition initialWorld : World :=
  {| shared := initialState; ctl := AtEntry; start := 0;
     inp := InEntry; mainpc := MainJoinInput; out := [] |}.

(** An event names the thread that performs its next atomic action.
    [CtlStep now]: the controller; [now] is the reading of [steady_clock]
    if the action takes one.  [InStep r]: the input thread; [r] is what
    [std::getline] delivers if the action calls it, [None] when the read
    fails (end of input).  [MainStep]: [main] after the join. *)
Inductive Event : Type :=
| CtlStep (now : Z)
| InStep (r : option string)
| MainStep.

(** Ticks of [steady_clock] per second ([std::nano] period). *)
Definition clockHz : Z := 1000000000.

(** [(uint64_t)duration_cast<seconds>(now - start).count()]: truncation
    toward zero, then conversion to 64 unsigned bits. *)
Definition elapsedSeconds (start now : Z) : Z :=
  Z.quot (now - start) clockHz mod 2 ^ 64.

Definition with_shared (w : World) (st : SharedState) : World :=
  {| shared := st; ctl := ctl w; start := start w;
     inp := inp w; mainpc := mainpc w; out := out w |}.

Definition with_ctl (w : World) (pc : CtlPc) : World :=
  {| shared := shared w; ctl := pc; start := start w;
     inp := inp w; mainpc := mainpc w; out := out w |}.

Definition with_inp (w : World) (pc : InPc) : World :=
  {| shared := shared w; ctl := ctl w; start := start w;
     inp := pc; mainpc := mainpc w; out := out w |}.

Definition emit (w : World) (o : Output) : World :=
  {| shared := shared w; ctl := ctl w; start := start w;
     inp := inp w; mainpc := mainpc w; out := out w ++ [o] |}.

(** [line == "q" || line == "quit" || line == "exit"]. *)
Definition isQuit (line : string) : bool :=
  String.eqb line "q" || String.eqb line "quit" || String.eqb line "exit".

Section Machine.

Variable cfg : Config.

(** One atomic action of [controllerThread]. *)
Definition ctl_step (now : Z) (w : World) : World :=
  match ctl w with
  | AtEntry =>
      (* auto start = steady_clock::now(); *)
      {| shared := shared w; ctl := AtWhile; start := now;
         inp := inp w; mainpc := mainpc w; out := out w |}
  | AtWhile =>
      (* while (st.running.load()) *)
      if running (shared w) then with_ctl w AtSnap else with_ctl w Returned
  | AtSnap =>
      (* the locked snapshot block *)
      let st := shared w in
      let t := elapsedSeconds (start w) now in
      let snap := {| snap_phase := phase st;
                     snap_pedRequested := pedRequested st;
                     snap_tick := t |} in
      with_ctl
        (with_shared w {| phase := phase st; pedRequested := pedRequested st;
                          running := running st; tick := t |})
        (AtPrint snap)
  | AtPrint snap =>
      (* printStatus(snap); int holdSec = durationForPhase(cfg, snap.phase);
         int i = 0 *)
      with_ctl (emit w (OutStatus (printStatus snap)))
               (AtFor 0 (durationForPhase cfg (snap_phase snap)))
  | AtFor i holdSec =>
      if i <? holdSec then
        (* if (!st.running.load()) return; *)
        if negb (running (shared w)) then with_ctl w Returned
        else with_ctl w (AtSleep i holdSec)
      else with_ctl w AtGate
  | AtSleep i holdSec =>
      (* std::this_thread::sleep_for(1s); ++i *)
      with_ctl w (AtFor (i + 1) holdSec)
  | AtGate =>
      (* the locked transition block *)
      with_ctl (with_shared w (transition (shared w))) AtWhile
  | Returned => w
  end.

(** One atomic action of [inputThread]. *)
Definition in_step (r : option string) (w : World) : World :=
  match inp w with
  | InEntry =>
      with_inp
        (emit w (OutText "Controls: p + Enter : request pedestrian WALK, q + Enter : quit"))
        InLoop
  | InLoop =>
      if running (shared w) then
        match r with
        | None =>
            (* getline failed: leave the loop, st.running.store(false) *)
            with_inp (with_shared w (stopRunning (shared w))) InExited
        | Some line =>
            if isQuit line then
              (* store(false); break; then the store after the loop *)
              with_inp
                (with_shared w (stopRunning (stopRunning (shared w))))
                InExited
            else if String.eqb line "p" then
              emit (with_shared w (requestPedestrian (shared w)))
                   (OutText "[input] Pedestrian request queued.")
            else if negb (String.eqb line "") then
              emit w (OutText "[input] Unknown command. Use 'p' or 'q'.")
            else w
        end
      else
        with_inp (with_shared w (stopRunning (shared w))) InExited
  | InExited => w
  end.

(** [main] after [tInput.join()]: [state.running.store(false)]. *)
Definition main_step (w : World) : World :=
  match inp w, mainpc w with
  | InExited, MainJoinInput =>
      {| shared := stopRunning (shared w); ctl := ctl w; start := start w;
         inp := inp w; mainpc := MainStored; out := out w |}
  | _, _ => w
  end.

Definition apply_event (e : Event) (w : World) : World :=
  match e with
  | CtlStep now => ctl_step now w
  | InStep r => in_step r w
  | MainStep => main_step w
  end.

(** An execution: the events applied from left to right. *)
Fixpoint run (es : list Event) (w : World) : World :=
  match es with
  | [] => w
  | e :: es' => run es' (apply_event e w)
  end.

(** The step relation of the whole program and its reachable worlds. *)
Definition step (w w' : World) : Prop := exists e, w' = apply_event e w.

Definition reachable (w : World) : Prop := exists es, w = run es initialWorld.

(** Number of [sleep_for(1s)] calls completed along an execution. *)
Definition is_sleep (e : Event) (w : World) : bool :=
  match e, ctl w with
  | CtlStep _, AtSleep _ _ => true
  | _, _ => false
  end.

(** Number of executions of the transition block along an execution. *)
Definition is_gate (e : Event) (w : World) : bool :=
  match e, ctl w with
  | CtlStep _, AtGate => true
  | _, _ => false
  end.

Fixpoint count_steps (f : Event -> World -> bool)
         (es : list Event) (w : World) : nat :=
  match es with
  | [] => 0%nat
  | e :: es' =>
      ((if f e w then 1 else 0) + count_steps f es' (apply_event e w))%nat
  end.

Definition sleeps := count_steps is_sleep.
Definition gates := count_steps is_gate.

(** Whether the controller, where it stands, will reach the transition
    block without testing [running] again in this iteration. *)
Definition gate_pending (w : World) : bool :=
  match ctl w with
  | AtSnap => durationForPhase cfg (phase (shared w)) <=? 0
  | AtPrint snap => durationForPhase cfg (snap_phase snap) <=? 0
  | AtFor i holdSec => holdSec <=? i
  | AtSleep i holdSec => holdSec <=? i + 1
  | AtGate => true
  | AtEntry | AtWhile | Returned => false
  end.

End Machine.

Definition is_ctl (e : Event) : bool :=
  match e with CtlStep _ => true | _ => false end.

(** Number of controller actions in a list of events. *)
Definition ctl_actions (es : list Event) : nat :=
  List.length (List.filter is_ctl es).

(** ** Definitions used to state the properties *)

(** The closed loop of the normal progression, in order. *)
Definition normalCycle : list Phase :=
  [NS_Green; NS_Yellow; All_Red_1; EW_Green; EW_Yellow; All_Red_2].

(** The transition rule in the words of the design: at one of the two
    all-red phases with a pending request, clear the request and enter
    [Ped_Walk]; otherwise move to the normal successor. *)
Definition isAllRed (p : Phase) : bool :=
  match p with
  | All_Red_1 | All_Red_2 => true
  | _ => false
  end.

Definition ruleTransition (st : SharedState) : SharedState :=
  match isAllRed (phase st), pedRequested st with
  | true, true =>
      mkShared Ped_Walk false (running st) (tick st)
  | _, _ =>
      mkShared (nextNormalPhase (phase st)) (pedRequested st)
               (running st) (tick st)
  end.

(** The light-mapping table of the design, row by row. *)
Definition lightTable (p : Phase) : Lights :=
  match p with
  | NS_Green  => mkLights Green Red false
  | NS_Yellow => mkLights Yellow Red false
  | All_Red_1 => mkLights Red Red false
  | EW_Green  => mkLights Red Green false
  | EW_Yellow => mkLights Red Yellow false
  | All_Red_2 => mkLights Red Red false
  | Ped_Walk  => mkLights Red Red true
  end.

(** A light triple is safe when WALK implies red in both directions. *)
Definition lights_safe (l : Lights) : Prop :=
  walkOn l = true -> ns l = Red /\ ew l = Red.

(** The same on a printed status line. *)
Definition status_safe (l : StatusLine) : Prop :=
  sl_walk l = "ON" -> sl_ns l = "RED" /\ sl_ew l = "RED".

Definition output_safe (o : Output) : Prop :=
  match o with
  | OutStatus l => status_safe l
  | OutText _ => True
  end.

(** Two worlds that differ at most in what has been printed. *)
Definition same_state (w1 w2 : World) : Prop :=
  shared w1 = shared w2 /\ ctl w1 = ctl w2 /\ start w1 = start w2 /\
  inp w1 = inp w2 /\ mainpc w1 = mainpc w2.

(** The shutdown claim read literally: from any reachable world in which
    [running] is false, no execution changes [phase] any more. *)
Definition no_mutation_after_stop (cfg : Config) : Prop :=
  forall w es,
    reachable cfg w ->
    running (shared w) = false ->
    phase (shared (run cfg es w)) = phase (shared w).

(** Number of controller actions still needed to return once [running] is
    false. *)
Definition stop_rank (cfg : Config) (w : World) : nat :=
  match ctl w with
  | Returned => 0%nat
  | AtWhile => 1%nat
  | AtEntry => 2%nat
  | AtGate => 2%nat
  | AtFor i holdSec => if i <? holdSec then 1%nat else 3%nat
  | AtSleep i holdSec => if i + 1 <? holdSec then 2%nat else 4%nat
  | AtPrint snap =>
      if 0 <? durationForPhase cfg (snap_phase snap) then 2%nat else 4%nat
  | AtSnap =>
      if 0 <? durationForPhase cfg (phase (shared w)) then 3%nat else 5%nat
  end.

(** The execution used to exhibit a transition after shutdown: the banner,
    then the controller up to the last [sleep_for] of the first [NS_Green]
    hold (default configuration), then the line [q]. *)
Definition stop_in_last_slice : list Event :=
  InStep None :: repeat (CtlStep 0) 23 ++ [InStep (Some "q")].

(** The index [i] of the hold loop stays between 0 and [holdSec], so the
    [++i] on [int] never overflows and [i + 1] on [Z] is exact. *)
Definition hold_index_ok (w : World) : Prop :=
  match ctl w with
  | AtFor i holdSec => 0 <= i <= Z.max 0 holdSec
  | AtSleep i holdSec => 0 <= i < holdSec
  | _ => True
  end.

(** The phase names of the status lines printed so far, in order. *)
Definition printed_phases (w : World) : list string :=
  flat_map (fun o => match o with
                     | OutStatus l => [sl_phase l]
                     | OutText _ => []
                     end) (out w).

(** Bounds, in a world where [running] is false, on the sleeps and on the
    transition blocks the controller can still perform. *)
Definition sleep_budget (w : World) : nat :=
  match ctl w with
  | AtSleep _ _ => 1%nat
  | _ => 0%nat
  end.

Definition gate_budget (cfg : Config) (w : World) : nat :=
  if gate_pending cfg w then 1%nat else 0%nat.

(** An event that makes the input thread leave its loop when the thread
    is at the loop condition: a failed read or one of the quit lines. *)
Definition delivers_exit (e : Event) : bool :=
  match e with
  | InStep None => true
  | InStep (Some line) => isQuit line
  | CtlStep _ | MainStep => false
  end.

(** A configuration with one-second holds and the execution in which a
    request made during the first green is served at [All_Red_1], up to the
    status line of [Ped_Walk]. *)
Definition unitConfig : Config := mkConfig 1 1 1 1 1 1.

Definition walk_after_request : list Event :=
  InStep None :: InStep (Some "p") :: repeat (CtlStep 0) 25.

(** Concrete worlds and executions used as instances below. *)

(** The controller at the transition block of [All_Red_2], a request
    pending. *)
Definition gate_with_request : World :=
  mkWorld (mkShared All_Red_2 true true 27) AtGate 0 InLoop MainJoinInput [].

(** A request pending while the controller sleeps in [NS_Yellow]. *)
Definition pending_in_yellow : World :=
  mkWorld (mkShared NS_Yellow true true 11) (AtSleep 1 3) 0
          InLoop MainJoinInput [].

(** [running] already false while the controller is in the third of the ten
    sleeps of [EW_Green]. *)
Definition stopped_mid_hold : World :=
  mkWorld (mkShared EW_Green false false 14) (AtSleep 2 10) 0
          InExited MainStored [].

(** The world reached by [stop_in_last_slice]. *)
Definition stopped_in_last_slice : World :=
  run defaultConfig stop_in_last_slice initialWorld.

(** An execution whose input lines contain no quit command. *)
Definition lines_without_quit : list Event :=
  [InStep (Some ""); CtlStep 0; InStep (Some "p");
   InStep (Some "hello"); CtlStep 5; InStep (Some "")].

(** The status line of a walk phase printed at tick 0. *)
Definition walk_line : StatusLine :=
  mkStatus 0 "PED_WALK" "RED" "RED" "ON" "NO".

(** ** Definitions for the properties of whole executions *)

(** A controller action that grants a walk: the transition block taken at
    an all-red phase with the request flag set. *)
Definition is_grant (e : Event) (w : World) : bool :=
  is_gate e w && isAllRed (phase (shared w)) && pedRequested (shared w).

Definition grants (cfg : Config) : list Event -> World -> nat :=
  count_steps cfg is_grant.

(** Number of transition blocks after which a request pending at phase [p]
    has been granted at the latest. *)
Definition walk_debt (p : Phase) : nat :=
  match p with
  | All_Red_1 | All_Red_2 => 1%nat
  | NS_Yellow | EW_Yellow => 2%nat
  | NS_Green | EW_Green => 3%nat
  | Ped_Walk => 4%nat
  end.

(** A phase boundary reached with a request made since the previous one. *)
Definition requestThenTransition (st : SharedState) : SharedState :=
  transition (requestPedestrian st).

(** Along a list of printed phase names, [PED_WALK] only right after
    [ALL_RED]; [prev] is the name printed before the list. *)
Fixpoint walk_preceded (prev : string) (l : list string) : bool :=
  match l with
  | [] => true
  | x :: r =>
      (negb (String.eqb x "PED_WALK") || String.eqb prev "ALL_RED")
      && walk_preceded x r
  end.

Definition walk_only_after_all_red (l : list string) : bool :=
  walk_preceded "" l.

(** The hold in progress is the configured duration of the current phase,
    its index lies between 0 and that duration, and a snapshot waiting to
    be printed carries the current phase. *)
Definition hold_matches_phase (cfg : Config) (w : World) : Prop :=
  match ctl w with
  | AtPrint snap => snap_phase snap = phase (shared w)
  | AtFor i holdSec =>
      holdSec = durationForPhase cfg (phase (shared w)) /\
      0 <= i <= Z.max 0 holdSec
  | AtSleep i holdSec =>
      holdSec = durationForPhase cfg (phase (shared w)) /\
      0 <= i < holdSec
  | _ => True
  end.

(** How the three threads stand to each other. *)
Definition threads_agree (w : World) : Prop :=
  (running (shared w) = false <-> inp w = InExited) /\
  (mainpc w = MainStored -> inp w = InExited) /\
  (ctl w = Returned -> running (shared w) = false).

(** What links the printed phase names to the current phase. *)
Definition trace_inv (w : World) : Prop :=
  walk_only_after_all_red (printed_phases w) = true /\
  hd "NS_GREEN" (printed_phases w) = "NS_GREEN" /\
  match ctl w with
  | AtEntry => printed_phases w = [] /\ phase (shared w) = NS_Green
  | AtWhile | AtSnap =>
      (phase (shared w) = Ped_Walk ->
       last (printed_phases w) "" = "ALL_RED") /\
      (printed_phases w = [] -> phase (shared w) = NS_Green)
  | AtPrint snap =>
      snap_phase snap = phase (shared w) /\
      (phase (shared w) = Ped_Walk ->
       last (printed_phases w) "" = "ALL_RED") /\
      (printed_phases w = [] -> phase (shared w) = NS_Green)
  | AtFor _ _ | AtSleep _ _ | AtGate =>
      last (printed_phases w) "" = phaseToStr (phase (shared w))
  | Returned => True
  end.

(** Worlds used as instances of the properties below. *)
Definition at_loop_head : World :=
  mkWorld (mkShared All_Red_1 true true 13) AtWhile 0 InLoop MainJoinInput [].

Definition hold_of_three : World :=
  mkWorld (mkShared NS_Yellow false true 10) (AtFor 0 3) 0
          InLoop MainJoinInput [].

Ltac unfold_step :=
  unfold apply_event, ctl_step, in_step, main_step,
    with_ctl, with_shared, with_inp, emit in *; cbn in *.

Ltac break_match :=
  repeat match goal with
         | |- context [match ?x with _ => _ end] =>
             lazymatch x with
             | context [match _ with _ => _ end] => fail
             | _ => destruct x eqn:?; cbn in *
             end
         end.

Ltac bool_to_Z :=
  repeat match goal with
         | H : (_ <? _) = true |- _ => apply Z.ltb_lt in H
         | H : (_ <? _) = false |- _ => apply Z.ltb_ge in H
         | H : (_ <=? _) = true |- _ => apply Z.leb_le in H
         | H : (_ <=? _) = false |- _ => apply Z.leb_gt in H
         end.

Ltac fold_printed o :=
  rewrite ?flat_map_app; cbn [flat_map app]; rewrite ?app_nil_r;
  match goal with
  | |- context [flat_map ?f o] =>
      let L := fresh "L" in set (L := flat_map f o) in *; clearbody L
  end.

(** ** Phase table: lights, durations, successor *)

Lemma computeLights_overwrites (p : Phase) (o1 o2 : Lights) :
  computeLights p o1 = computeLights p o2.
Proof. destruct p; reflexivity. Qed.

Lemma computeLights_table (p : Phase) (o : Lights) :
  computeLights p o = lightTable p.
Proof. destruct p; reflexivity. Qed.

Lemma computeLights_safe (p : Phase) (o : Lights) :
  lights_safe (computeLights p o).
Proof.
  rewrite computeLights_table.
  destruct p; unfold lights_safe; cbn; intros H; try discriminate H; auto.
Qed.

(** C7: [computeLights] returns, for each of the seven phases and whatever
    the out-parameters held before the call, exactly the row of the
    light-mapping table. *)
Theorem computeLights_matches_table :
  forall o : Lights,
    computeLights NS_Green  o = mkLights Green  Red    false /\
    computeLights NS_Yellow o = mkLights Yellow Red    false /\
    computeLights All_Red_1 o = mkLights Red    Red    false /\
    computeLights EW_Green  o = mkLights Red    Green  false /\
    computeLights EW_Yellow o = mkLights Red    Yellow false /\
    computeLights All_Red_2 o = mkLights Red    Red    false /\
    computeLights Ped_Walk  o = mkLights Red    Red    true /\
    (forall p o', computeLights p o = computeLights p o') /\
    (forall p, computeLights p o = lightTable p).
Proof.
  intros o.
  repeat match goal with |- _ /\ _ => split end;
    first [ exact (fun p o' => computeLights_overwrites p o o')
          | exact (fun p => computeLights_table p o)
          | reflexivity ].
Qed.

(** C9: the default configuration gives the holds 10, 3, 1, 10, 3, 1, 6;
    both all-red phases read the one field [allRedSec] in any
    configuration; the six defaults are positive and a configuration is
    determined by its six fields. *)
Theorem default_hold_durations :
  durationForPhase defaultConfig NS_Green  = 10 /\
  durationForPhase defaultConfig NS_Yellow = 3 /\
  durationForPhase defaultConfig EW_Green  = 10 /\
  durationForPhase defaultConfig EW_Yellow = 3 /\
  durationForPhase defaultConfig Ped_Walk  = 6 /\
  durationForPhase defaultConfig All_Red_1 = 1 /\
  durationForPhase defaultConfig All_Red_2 = 1 /\
  (forall cfg, durationForPhase cfg All_Red_1 = allRedSec cfg /\
               durationForPhase cfg All_Red_2 = allRedSec cfg) /\
  (forall p, 0 < durationForPhase defaultConfig p) /\
  (forall cfg, cfg = mkConfig (nsGreenSec cfg) (nsYellowSec cfg)
                              (ewGreenSec cfg) (ewYellowSec cfg)
                              (allRedSec cfg) (pedWalkSec cfg)).
Proof.
  repeat match goal with |- _ /\ _ => split end;
    try reflexivity; try (intros cfg; split; reflexivity).
  - intros p. destruct p; reflexivity.
  - intros cfg. destruct cfg; reflexivity.
Qed.

(** C5: on the six phases other than [Ped_Walk] the normal successor is the
    cyclic shift of [normalCycle]: it stays among the six, is injective and
    onto there, returns to its argument after exactly six applications and
    not earlier, and six applications from [NS_Green] give [NS_Green]. *)
Theorem nextNormalPhase_six_cycle (p : Phase) (Hp : p <> Ped_Walk) :
  In p normalCycle /\
  nextNormalPhase p <> Ped_Walk /\
  (forall q, q <> Ped_Walk -> nextNormalPhase q = nextNormalPhase p -> q = p) /\
  (exists q, q <> Ped_Walk /\ nextNormalPhase q = p) /\
  Nat.iter 6 nextNormalPhase p = p /\
  (forall n, (0 < n < 6)%nat -> Nat.iter n nextNormalPhase p <> p) /\
  map nextNormalPhase normalCycle =
    [NS_Yellow; All_Red_1; EW_Green; EW_Yellow; All_Red_2; NS_Green] /\
  Nat.iter 6 nextNormalPhase NS_Green = NS_Green.
Proof.
  repeat match goal with |- _ /\ _ => split end; try reflexivity.
  - destruct p; cbn; tauto.
  - destruct p; cbn; discriminate.
  - intros q Hq. destruct p, q; cbn; intros E;
      try reflexivity; try discriminate E;
      try (contradiction Hp; reflexivity);
      try (contradiction Hq; reflexivity).
  - destruct p;
      [ exists All_Red_2 | exists NS_Green | exists NS_Yellow
      | exists All_Red_1 | exists EW_Green | exists EW_Yellow
      | contradiction Hp; reflexivity ];
      (split; [discriminate | reflexivity]).
  - destruct p; try reflexivity. contradiction Hp; reflexivity.
  - intros n [Hlo Hhi].
    assert (Hn : n = 1%nat \/ n = 2%nat \/ n = 3%nat \/ n = 4%nat \/ n = 5%nat)
      by lia.
    destruct Hn as [-> | [-> | [-> | [-> | ->]]]];
      destruct p; cbn; try discriminate; contradiction Hp; reflexivity.
Qed.

Lemma nextNormalPhase_six_cycle_witness :
  EW_Yellow <> Ped_Walk /\
  nextNormalPhase EW_Yellow <> Ped_Walk /\
  Nat.iter 6 nextNormalPhase EW_Yellow = EW_Yellow.
Proof.
  assert (H : EW_Yellow <> Ped_Walk) by discriminate.
  split; [exact H | split].
  - apply (nextNormalPhase_six_cycle EW_Yellow H).
  - apply (nextNormalPhase_six_cycle EW_Yellow H).
Defined.

(** ** The transition block *)

Lemma isAllRed_eqb (p : Phase) :
  Phase_eqb p All_Red_1 || Phase_eqb p All_Red_2 = isAllRed p.
Proof. destruct p; reflexivity. Qed.

Lemma isAllRed_true (p : Phase) :
  isAllRed p = true -> p = All_Red_1 \/ p = All_Red_2.
Proof. destruct p; cbn; intros H; try discriminate H; auto. Qed.

Lemma transition_rule (st : SharedState) : transition st = ruleTransition st.
Proof.
  unfold transition, ruleTransition. rewrite isAllRed_eqb.
  destruct (isAllRed (phase st)), (pedRequested st); reflexivity.
Qed.

Lemma transition_running (st : SharedState) :
  running (transition st) = running st.
Proof.
  rewrite transition_rule. unfold ruleTransition.
  destruct (isAllRed (phase st)), (pedRequested st); reflexivity.
Qed.

Lemma transition_enters_walk (st : SharedState) :
  phase (transition st) = Ped_Walk ->
  isAllRed (phase st) = true /\ pedRequested st = true /\
  pedRequested (transition st) = false.
Proof.
  rewrite transition_rule. unfold ruleTransition.
  destruct (isAllRed (phase st)) eqn:Ered, (pedRequested st) eqn:Eped;
    cbn; intros H; auto;
    destruct (phase st); cbn in *; discriminate.
Qed.

(** C2: the block applied at a phase boundary is the stated rule: at
    [All_Red_1] or [All_Red_2] with a pending request it clears the request
    and sets [Ped_Walk]; in every other case it sets the normal successor
    and leaves the request flag as it was.  [running] and [tick] are never
    touched. *)
Theorem transition_is_stated_rule :
  forall st : SharedState,
    transition st = ruleTransition st /\
    transition st =
      (if isAllRed (phase st) && pedRequested st
       then mkShared Ped_Walk false (running st) (tick st)
       else mkShared (nextNormalPhase (phase st)) (pedRequested st)
                     (running st) (tick st)) /\
    running (transition st) = running st /\
    tick (transition st) = tick st.
Proof.
  intros st. rewrite transition_rule. unfold ruleTransition.
  destruct (isAllRed (phase st)), (pedRequested st); cbn; auto.
Qed.

(** C6: the normal successor of [Ped_Walk] is [NS_Green]; the transition
    block leaves [Ped_Walk] for [NS_Green] whatever the request flag holds,
    and does so after a walk granted at either all-red slot. *)
Theorem ped_walk_successor_is_ns_green
        (st : SharedState) (Hwalk : phase st = Ped_Walk) :
  nextNormalPhase Ped_Walk = NS_Green /\
  phase (transition st) = NS_Green /\
  pedRequested (transition st) = pedRequested st /\
  (forall st0,
      isAllRed (phase st0) = true -> pedRequested st0 = true ->
      phase (transition st0) = Ped_Walk /\
      phase (transition (transition st0)) = NS_Green /\
      phase (transition (requestPedestrian (transition st0))) = NS_Green).
Proof.
  split; [reflexivity |].
  rewrite transition_rule. unfold ruleTransition. rewrite Hwalk. cbn.
  split; [reflexivity | split; [reflexivity |]].
  intros st0 Hred Hped.
  rewrite !transition_rule. unfold ruleTransition.
  rewrite Hred, Hped. cbn. auto.
Qed.

Lemma ped_walk_successor_is_ns_green_witness :
  phase (mkShared Ped_Walk true true 19) = Ped_Walk /\
  phase (transition (mkShared Ped_Walk true true 19)) = NS_Green.
Proof.
  assert (H : phase (mkShared Ped_Walk true true 19) = Ped_Walk)
    by reflexivity.
  split; [exact H |].
  apply (ped_walk_successor_is_ns_green (mkShared Ped_Walk true true 19) H).
Defined.

(** ** Steps of the machine *)

Lemma phase_changes_only_at_gate (cfg : Config) (e : Event) (w : World) :
  is_gate e w = false ->
  phase (shared (apply_event cfg e w)) = phase (shared w).
Proof.
  unfold is_gate. destruct e as [now | r |]; unfold_step.
  - destruct (ctl w) eqn:Epc; cbn; intros Hg;
      try discriminate Hg; break_match; reflexivity.
  - intros _. break_match; reflexivity.
  - intros _. break_match; reflexivity.
Qed.

(** C1: whenever a step of the program takes [phase] from something else to
    [Ped_Walk], the phase before the step was [All_Red_1] or [All_Red_2]
    (so neither a green nor a yellow phase), the request flag was set just
    before the step, the step is the controller's transition block, and the
    block has cleared the flag. *)
Theorem ped_walk_entered_only_from_all_red
        (cfg : Config) (e : Event) (w : World)
        (Hbefore : phase (shared w) <> Ped_Walk)
        (Hafter : phase (shared (apply_event cfg e w)) = Ped_Walk) :
  (phase (shared w) = All_Red_1 \/ phase (shared w) = All_Red_2) /\
  pedRequested (shared w) = true /\
  is_gate e w = true /\
  shared (apply_event cfg e w) = transition (shared w) /\
  pedRequested (shared (apply_event cfg e w)) = false.
Proof.
  destruct (is_gate e w) eqn:Hg.
  - unfold is_gate in Hg.
    destruct e as [now | r |]; try discriminate Hg.
    destruct (ctl w) eqn:Epc; try discriminate Hg.
    assert (Hs : shared (apply_event cfg (CtlStep now) w)
                 = transition (shared w))
      by (unfold_step; rewrite Epc; reflexivity).
    rewrite Hs in *.
    destruct (transition_enters_walk _ Hafter) as (Hred & Hped & Hclr).
    repeat split; auto using isAllRed_true.
  - rewrite (phase_changes_only_at_gate cfg e w Hg) in Hafter.
    contradiction.
Qed.

Lemma ped_walk_entered_only_from_all_red_witness :
  phase (shared gate_with_request) <> Ped_Walk /\
  phase (shared (apply_event defaultConfig (CtlStep 28000000000)
                             gate_with_request)) = Ped_Walk /\
  phase (shared gate_with_request) = All_Red_2 /\
  pedRequested (shared gate_with_request) = true.
Proof.
  assert (Hb : phase (shared gate_with_request) <> Ped_Walk)
    by (cbn; discriminate).
  assert (Ha : phase (shared (apply_event defaultConfig (CtlStep 28000000000)
                                          gate_with_request)) = Ped_Walk)
    by reflexivity.
  split; [exact Hb | split; [exact Ha | split; [reflexivity |]]].
  exact (proj1 (proj2 (ped_walk_entered_only_from_all_red
                         defaultConfig (CtlStep 28000000000)
                         gate_with_request Hb Ha))).
Defined.

(** ** What is printed *)

Lemma printStatus_safe (s : Snapshot) : status_safe (printStatus s).
Proof.
  unfold status_safe, printStatus.
  destruct (snap_phase s); cbn; intros H; try discriminate H; auto.
Qed.

Lemma apply_event_out_safe (cfg : Config) (e : Event) (w : World) :
  Forall output_safe (out w) ->
  Forall output_safe (out (apply_event cfg e w)).
Proof.
  intros Hw.
  destruct e as [now | r |]; unfold_step; break_match; auto;
    apply Forall_app; split; auto;
    constructor; cbn; auto using printStatus_safe.
Qed.

Lemma run_out_safe (cfg : Config) (es : list Event) :
  forall w, Forall output_safe (out w) ->
            Forall output_safe (out (run cfg es w)).
Proof.
  induction es as [| e es IH]; intros w Hw; cbn.
  - exact Hw.
  - apply IH. apply apply_event_out_safe. exact Hw.
Qed.

(** C3: in every world reached from the initial one by any interleaving of
    controller actions and input lines, every status line printed so far
    shows WALK=ON only together with NS=RED and EW=RED, and the lights of
    the current phase are safe; for every phase, if [computeLights] reports
    [walkOn] then both lights are [Red]. *)
Theorem walk_never_with_green_or_yellow (cfg : Config) (es : list Event) :
  let w := run cfg es initialWorld in
  Forall output_safe (out w) /\
  (forall l, In (OutStatus l) (out w) ->
             sl_walk l = "ON" -> sl_ns l = "RED" /\ sl_ew l = "RED") /\
  (forall l, In (OutStatus l) (out w) ->
             ~ (sl_walk l = "ON" /\
                (sl_ns l = "GREEN" \/ sl_ns l = "YELLOW" \/
                 sl_ew l = "GREEN" \/ sl_ew l = "YELLOW"))) /\
  (forall o, lights_safe (computeLights (phase (shared w)) o)) /\
  (forall p o, walkOn (computeLights p o) = true ->
               ns (computeLights p o) = Red /\ ew (computeLights p o) = Red).
Proof.
  intros w.
  assert (Hall : Forall output_safe (out w))
    by (apply run_out_safe; constructor).
  assert (Hlines : forall l, In (OutStatus l) (out w) -> status_safe l).
  { intros l Hin. rewrite Forall_forall in Hall. apply (Hall _ Hin). }
  split; [exact Hall | split; [| split; [| split]]].
  - exact Hlines.
  - intros l Hin [Hon Hbad].
    destruct (Hlines l Hin Hon) as [Hns Hew].
    rewrite Hns, Hew in Hbad.
    destruct Hbad as [H | [H | [H | H]]]; discriminate H.
  - intros o. apply computeLights_safe.
  - intros p o. apply computeLights_safe.
Qed.

Lemma walk_never_with_green_or_yellow_witness :
  In (OutStatus walk_line)
     (out (run unitConfig walk_after_request initialWorld)) /\
  sl_walk walk_line = "ON" /\
  sl_ns walk_line = "RED" /\ sl_ew walk_line = "RED".
Proof.
  assert (Hin : In (OutStatus walk_line)
                   (out (run unitConfig walk_after_request initialWorld)))
    by (vm_compute; repeat (try (left; reflexivity); right)).
  assert (Hon : sl_walk walk_line = "ON") by reflexivity.
  split; [exact Hin | split; [exact Hon |]].
  destruct (walk_never_with_green_or_yellow unitConfig walk_after_request)
    as (_ & Hlines & _).
  exact (Hlines walk_line Hin Hon).
Defined.

(** ** Pedestrian requests *)

Lemma same_state_refl (w : World) : same_state w w.
Proof. unfold same_state; auto. Qed.

Lemma apply_event_same_state (cfg : Config) (e : Event) (w1 w2 : World) :
  same_state w1 w2 ->
  same_state (apply_event cfg e w1) (apply_event cfg e w2).
Proof.
  destruct w1 as [s1 c1 t1 i1 m1 o1], w2 as [s2 c2 t2 i2 m2 o2].
  unfold same_state; cbn. intros (-> & -> & -> & -> & ->).
  destruct e as [now | r |]; unfold_step; break_match; auto.
Qed.

Lemma run_same_state (cfg : Config) (es : list Event) :
  forall w1 w2, same_state w1 w2 ->
                same_state (run cfg es w1) (run cfg es w2).
Proof.
  induction es as [| e es IH]; intros w1 w2 H; cbn.
  - exact H.
  - apply IH. apply apply_event_same_state. exact H.
Qed.

(** C8: with the request flag already set, setting it again returns the
    very same shared state; when the input thread handles a further line
    [p] in that situation the world differs from the one without the line
    only in the printed acknowledgement, and so does every execution that
    follows, hence the same phases and a single [Ped_Walk]. *)
Theorem pedestrian_request_idempotent
        (cfg : Config) (w : World)
        (Hped : pedRequested (shared w) = true) :
  requestPedestrian (shared w) = shared w /\
  (inp w = InLoop -> running (shared w) = true ->
   shared (apply_event cfg (InStep (Some "p")) w) = shared w /\
   forall es,
     same_state (run cfg es (apply_event cfg (InStep (Some "p")) w))
                (run cfg es w)).
Proof.
  assert (Hid : requestPedestrian (shared w) = shared w).
  { destruct w as [[ph pr rn tk] c t i m o]; cbn in *. subst pr. reflexivity. }
  split; [exact Hid |].
  intros Hloop Hrun.
  assert (Hsame : same_state (apply_event cfg (InStep (Some "p")) w) w).
  { unfold same_state. unfold_step. rewrite Hloop, Hrun. cbn.
    rewrite Hid. auto. }
  split.
  - apply Hsame.
  - intros es. apply run_same_state. exact Hsame.
Qed.

Lemma pedestrian_request_idempotent_witness :
  pedRequested (shared pending_in_yellow) = true /\
  requestPedestrian (shared pending_in_yellow) = shared pending_in_yellow.
Proof.
  assert (H : pedRequested (shared pending_in_yellow) = true) by reflexivity.
  split; [exact H |].
  exact (proj1 (pedestrian_request_idempotent defaultConfig
                                              pending_in_yellow H)).
Defined.

(** ** The input thread and shutdown *)

Lemma running_stays_false (cfg : Config) (e : Event) (w : World) :
  running (shared w) = false ->
  running (shared (apply_event cfg e w)) = false.
Proof.
  intros H. destruct e as [now | r |]; unfold_step; break_match;
    rewrite ?transition_running; congruence.
Qed.

Lemma run_running_stays_false (cfg : Config) (es : list Event) :
  forall w, running (shared w) = false ->
            running (shared (run cfg es w)) = false.
Proof.
  induction es as [| e es IH]; intros w H; cbn; auto using running_stays_false.
Qed.

Lemma input_alive_step (cfg : Config) (e : Event) (w : World) :
  delivers_exit e = false ->
  running (shared w) = true /\ inp w <> InExited ->
  running (shared (apply_event cfg e w)) = true /\
  inp (apply_event cfg e w) <> InExited.
Proof.
  intros He [Hrun Hinp].
  destruct w as [[ph pr rn tk] c t i m o]; cbn in *. subst rn.
  destruct e as [now | [line |] |]; cbn in He; try discriminate He;
    unfold_step; try rewrite He; cbn;
    destruct c, i; cbn; break_match; cbn;
    rewrite ?transition_running; cbn; split; congruence.
Qed.

Lemma input_alive_run (cfg : Config) (es : list Event) :
  forall w,
    existsb delivers_exit es = false ->
    running (shared w) = true /\ inp w <> InExited ->
    running (shared (run cfg es w)) = true /\ inp (run cfg es w) <> InExited.
Proof.
  induction es as [| e es IH]; intros w Hes Hw; cbn in *.
  - exact Hw.
  - apply orb_false_iff in Hes. destruct Hes as [He Hes].
    apply IH; auto using input_alive_step.
Qed.

(** C10: as long as no quit line and no end of input has been delivered,
    [running] is true and the input thread has not exited; when the read
    then fails at the loop condition, the thread leaves the loop with
    [running] false, in exactly the world the line [q] would have produced,
    without touching [phase] or the request flag. *)
Theorem end_of_input_stops_running
        (cfg : Config) (es : list Event)
        (Hes : existsb delivers_exit es = false) :
  let w := run cfg es initialWorld in
  running (shared w) = true /\
  inp w <> InExited /\
  (inp w = InLoop ->
   let w' := apply_event cfg (InStep None) w in
   inp w' = InExited /\
   running (shared w') = false /\
   w' = apply_event cfg (InStep (Some "q")) w /\
   phase (shared w') = phase (shared w) /\
   pedRequested (shared w') = pedRequested (shared w) /\
   forall es', running (shared (run cfg es' w')) = false).
Proof.
  intros w.
  assert (Halive : running (shared w) = true /\ inp w <> InExited).
  { apply input_alive_run; [exact Hes |].
    split; [reflexivity | discriminate]. }
  destruct Halive as [Hrun Hinp].
  split; [exact Hrun | split; [exact Hinp |]].
  intros Hloop w'.
  assert (Hw' : w' = with_inp (with_shared w (stopRunning (shared w)))
                              InExited).
  { unfold w'. unfold_step. rewrite Hloop, Hrun. reflexivity. }
  assert (Hstop : running (shared w') = false) by (rewrite Hw'; reflexivity).
  repeat match goal with |- _ /\ _ => split end;
    try (rewrite Hw'; reflexivity); try exact Hstop.
  - rewrite Hw'. unfold_step. rewrite Hloop, Hrun. reflexivity.
  - intros es'. apply run_running_stays_false. exact Hstop.
Qed.

Lemma end_of_input_stops_running_witness :
  existsb delivers_exit lines_without_quit = false /\
  inp (run defaultConfig lines_without_quit initialWorld) = InLoop /\
  running (shared (run defaultConfig lines_without_quit initialWorld))
    = true /\
  running (shared (apply_event defaultConfig (InStep None)
                     (run defaultConfig lines_without_quit initialWorld)))
    = false.
Proof.
  assert (Hes : existsb delivers_exit lines_without_quit = false)
    by reflexivity.
  assert (Hloop : inp (run defaultConfig lines_without_quit initialWorld)
                  = InLoop) by reflexivity.
  destruct (end_of_input_stops_running defaultConfig lines_without_quit Hes)
    as (Hrun & _ & Heof).
  destruct (Heof Hloop) as (_ & Hstop & _).
  split; [exact Hes | split; [exact Hloop | split; [exact Hrun |]]].
  exact Hstop.
Defined.

(** ** Shutdown of the controller *)

Section Potential.

Variable cfg : Config.
Variable f : Event -> World -> bool.
Variable pot : World -> nat.

Hypothesis pot_step :
  forall e w,
    running (shared w) = false ->
    ((if f e w then 1 else 0) + pot (apply_event cfg e w) <= pot w)%nat.

Lemma count_steps_bounded (es : list Event) :
  forall w, running (shared w) = false ->
            (count_steps cfg f es w <= pot w)%nat.
Proof.
  induction es as [| e es IH]; intros w Hw; cbn.
  - lia.
  - specialize (IH (apply_event cfg e w) (running_stays_false cfg e w Hw)).
    specialize (pot_step e w Hw). lia.
Qed.

End Potential.

Lemma sleep_budget_step (cfg : Config) (e : Event) (w : World) :
  running (shared w) = false ->
  ((if is_sleep e w then 1 else 0) + sleep_budget (apply_event cfg e w)
   <= sleep_budget w)%nat.
Proof.
  intros Hw. destruct w as [[ph pr rn tk] c t i m o]; cbn in *. subst rn.
  unfold is_sleep, sleep_budget.
  destruct e as [now | r |]; unfold_step;
    destruct c; cbn; break_match; cbn; lia.
Qed.

Lemma gate_budget_step (cfg : Config) (e : Event) (w : World) :
  running (shared w) = false ->
  ((if is_gate e w then 1 else 0) + gate_budget cfg (apply_event cfg e w)
   <= gate_budget cfg w)%nat.
Proof.
  intros Hw. destruct w as [[ph pr rn tk] c t i m o]; cbn in *. subst rn.
  unfold is_gate, gate_budget, gate_pending.
  destruct e as [now | r |]; unfold_step;
    destruct c; cbn; break_match; cbn; bool_to_Z; lia.
Qed.

Lemma stop_rank_ctl_step (cfg : Config) (now : Z) (w : World) :
  running (shared w) = false ->
  (stop_rank cfg (apply_event cfg (CtlStep now) w)
   <= Nat.pred (stop_rank cfg w))%nat.
Proof.
  intros Hw. destruct w as [[ph pr rn tk] c t i m o]; cbn in *. subst rn.
  unfold stop_rank. unfold_step.
  destruct c; cbn; break_match; cbn; bool_to_Z; lia.
Qed.

Lemma stop_rank_other_step (cfg : Config) (e : Event) (w : World) :
  is_ctl e = false ->
  stop_rank cfg (apply_event cfg e w) = stop_rank cfg w.
Proof.
  destruct w as [[ph pr rn tk] c t i m o].
  unfold stop_rank.
  destruct e as [now | r |]; cbn; intros He; try discriminate He;
    unfold_step; break_match; cbn; congruence.
Qed.

Lemma stop_rank_run (cfg : Config) (es : list Event) :
  forall w, running (shared w) = false ->
            (stop_rank cfg (run cfg es w)
             <= stop_rank cfg w - ctl_actions es)%nat.
Proof.
  unfold ctl_actions.
  induction es as [| e es IH]; intros w Hw.
  - cbn. lia.
  - specialize (IH (apply_event cfg e w) (running_stays_false cfg e w Hw)).
    cbn [run filter]. destruct (is_ctl e) eqn:He.
    + destruct e as [now | r |]; try discriminate He.
      pose proof (stop_rank_ctl_step cfg now w Hw). cbn [List.length]. lia.
    + rewrite (stop_rank_other_step cfg e w He) in IH. exact IH.
Qed.

Lemma stop_rank_le_5 (cfg : Config) (w : World) : (stop_rank cfg w <= 5)%nat.
Proof. unfold stop_rank. break_match; lia. Qed.

Lemma stop_rank_zero (cfg : Config) (w : World) :
  stop_rank cfg w = 0%nat -> ctl w = Returned.
Proof. unfold stop_rank. break_match; intros H; congruence. Qed.

Lemma gates_zero_phase (cfg : Config) (es : list Event) :
  forall w, gates cfg es w = 0%nat ->
            phase (shared (run cfg es w)) = phase (shared w).
Proof.
  unfold gates.
  induction es as [| e es IH]; intros w H; cbn in *.
  - reflexivity.
  - destruct (is_gate e w) eqn:Hg; [discriminate H |].
    rewrite (IH _ H). apply phase_changes_only_at_gate. exact Hg.
Qed.

(** C4 as the code has it: [running] is tested before each one-second
    sleep, and the controller returns at once, with the shared state as it
    is, when the flag is false.  Once the flag is false it stays false, the
    controller completes at most one sleep (the one it was in) and returns
    within five of its actions.  It performs no transition block if the
    flag was false at one of these tests, that is before the last sleep of
    the hold began; otherwise at most one. *)
Theorem shutdown_within_one_slice
        (cfg : Config) (w : World) (es : list Event)
        (Hstop : running (shared w) = false) :
  running (shared (run cfg es w)) = false /\
  (sleeps cfg es w <= 1)%nat /\
  (gates cfg es w <= 1)%nat /\
  (gate_pending cfg w = false ->
   gates cfg es w = 0%nat /\
   phase (shared (run cfg es w)) = phase (shared w)) /\
  ((5 <= ctl_actions es)%nat -> ctl (run cfg es w) = Returned) /\
  (forall i holdSec now,
      ctl w = AtFor i holdSec -> i < holdSec ->
      apply_event cfg (CtlStep now) w = with_ctl w Returned).
Proof.
  assert (Hs : (sleeps cfg es w <= sleep_budget w)%nat)
    by (apply count_steps_bounded; auto using sleep_budget_step).
  assert (Hg : (gates cfg es w <= gate_budget cfg w)%nat)
    by (apply count_steps_bounded; auto using gate_budget_step).
  repeat match goal with |- _ /\ _ => split end.
  - apply run_running_stays_false. exact Hstop.
  - unfold sleep_budget in Hs. destruct (ctl w); lia.
  - unfold gate_budget in Hg. destruct (gate_pending cfg w); lia.
  - intros Hnp. unfold gate_budget in Hg. rewrite Hnp in Hg.
    assert (H0 : gates cfg es w = 0%nat) by lia.
    split; [exact H0 | apply gates_zero_phase; exact H0].
  - intros Hn. apply (stop_rank_zero cfg).
    pose proof (stop_rank_run cfg es w Hstop).
    pose proof (stop_rank_le_5 cfg w). lia.
  - intros i holdSec now Hpc Hlt. unfold_step. rewrite Hpc, Hstop.
    apply Z.ltb_lt in Hlt. rewrite Hlt. reflexivity.
Qed.

Lemma shutdown_within_one_slice_witness :
  running (shared stopped_mid_hold) = false /\
  ctl (run defaultConfig [CtlStep 0; CtlStep 0] stopped_mid_hold)
    = Returned /\
  (sleeps defaultConfig [CtlStep 0; CtlStep 0] stopped_mid_hold <= 1)%nat /\
  phase (shared (run defaultConfig [CtlStep 0; CtlStep 0] stopped_mid_hold))
    = EW_Green.
Proof.
  assert (H : running (shared stopped_mid_hold) = false) by reflexivity.
  destruct (shutdown_within_one_slice
              defaultConfig stopped_mid_hold [CtlStep 0; CtlStep 0] H)
    as (_ & Hs & _ & Hp & _).
  destruct (Hp eq_refl) as [_ Hphase].
  split; [exact H | split; [reflexivity | split; [exact Hs | exact Hphase]]].
Defined.

(** C4, the part that fails: with the default configuration, [q] is read
    while the controller is in the last of the ten sleeps of [NS_Green].
    [running] is false from then on, yet after that sleep the controller
    does not test the flag: it runs the transition block, [phase] becomes
    [NS_Yellow], and only then does the loop condition end the thread. *)
Lemma shutdown_may_still_transition :
  reachable defaultConfig stopped_in_last_slice /\
  running (shared stopped_in_last_slice) = false /\
  ctl stopped_in_last_slice = AtSleep 9 10 /\
  phase (shared stopped_in_last_slice) = NS_Green /\
  ctl (run defaultConfig [CtlStep 0; CtlStep 0] stopped_in_last_slice)
    = AtGate /\
  phase (shared (run defaultConfig [CtlStep 0; CtlStep 0; CtlStep 0]
                     stopped_in_last_slice)) = NS_Yellow /\
  ctl (run defaultConfig [CtlStep 0; CtlStep 0; CtlStep 0; CtlStep 0]
           stopped_in_last_slice) = Returned /\
  ~ no_mutation_after_stop defaultConfig.
Proof.
  assert (Hreach : reachable defaultConfig stopped_in_last_slice)
    by (exists stop_in_last_slice; reflexivity).
  split; [exact Hreach |].
  do 6 (split; [vm_compute; reflexivity |]).
  intros Hclaim.
  assert (Hstop : running (shared stopped_in_last_slice) = false)
    by (vm_compute; reflexivity).
  pose proof (Hclaim stopped_in_last_slice
                     [CtlStep 0; CtlStep 0; CtlStep 0] Hreach Hstop) as Heq.
  vm_compute in Heq. discriminate Heq.
Qed.

(** ** The hold loop index *)

Lemma hold_index_step (cfg : Config) (e : Event) (w : World) :
  hold_index_ok w -> hold_index_ok (apply_event cfg e w).
Proof.
  destruct w as [[ph pr rn tk] c t i m o].
  unfold hold_index_ok.
  destruct e as [now | r |]; unfold_step;
    destruct c; cbn; intros H; break_match; cbn; bool_to_Z;
    try exact I; try exact H; lia.
Qed.

Lemma hold_index_reachable (cfg : Config) (w : World) :
  reachable cfg w -> hold_index_ok w.
Proof.
  intros [es ->].
  assert (Hgen : forall w0, hold_index_ok w0 -> hold_index_ok (run cfg es w0)).
  { induction es as [| e es IH]; intros w0 H0; cbn; auto using hold_index_step. }
  apply Hgen. exact I.
Qed.

(** ** Executions of the default configuration *)

(** One full cycle without requests: 28 sleeps, seven status lines. *)
Example full_cycle_without_requests :
  let w := run defaultConfig (repeat (CtlStep 0) 90) initialWorld in
  printed_phases w =
    ["NS_GREEN"; "NS_YELLOW"; "ALL_RED"; "EW_GREEN"; "EW_YELLOW"; "ALL_RED";
     "NS_GREEN"] /\
  sleeps defaultConfig (repeat (CtlStep 0) 90) initialWorld = 28%nat /\
  phase (shared w) = NS_Green.
Proof. vm_compute. auto. Qed.

(** Two requests during the first green: one walk, granted at
    [All_Red_1], after which the cycle restarts at [NS_Green]. *)
Example two_requests_one_walk :
  let es := InStep None :: InStep (Some "p") :: InStep (Some "p")
            :: repeat (CtlStep 0) 64 in
  let w := run defaultConfig es initialWorld in
  printed_phases w =
    ["NS_GREEN"; "NS_YELLOW"; "ALL_RED"; "PED_WALK"; "NS_GREEN"] /\
  pedRequested (shared w) = false.
Proof. vm_compute. auto. Qed.

(** ** Names printed for phases and lights *)

Lemma lightToStr_injective (a b : Light) :
  lightToStr a = lightToStr b -> a = b.
Proof. destruct a, b; cbn; intros H; try reflexivity; discriminate H. Qed.

Lemma phaseToStr_eq (p q : Phase) :
  phaseToStr p = phaseToStr q ->
  p = q \/ (isAllRed p = true /\ isAllRed q = true).
Proof.
  destruct p, q; cbn; intros H;
    try (left; reflexivity); try (right; split; reflexivity);
    discriminate H.
Qed.

(** X1: [phaseToStr] gives two phases the same name exactly when they are
    equal or are the two all-red phases; every other phase is identified by
    its name. *)
Theorem phaseToStr_collides_only_on_all_red :
  forall p q : Phase,
    phaseToStr p = phaseToStr q <->
    (p = q \/ (isAllRed p = true /\ isAllRed q = true)).
Proof.
  intros p q. split.
  - apply phaseToStr_eq.
  - intros [-> | [Hp Hq]]; [reflexivity |].
    destruct p; try discriminate Hp; destruct q; try discriminate Hq;
      reflexivity.
Qed.

(** X2: two snapshots are printed as the same status line exactly when they
    have the same tick, the same request flag, and phases that are equal or
    both all-red; a status line therefore fixes the light triple. *)
Theorem printStatus_identifies_snapshot :
  forall s1 s2 : Snapshot,
    (printStatus s1 = printStatus s2 <->
     (snap_tick s1 = snap_tick s2 /\
      snap_pedRequested s1 = snap_pedRequested s2 /\
      (snap_phase s1 = snap_phase s2 \/
       (isAllRed (snap_phase s1) = true /\
        isAllRed (snap_phase s2) = true)))) /\
    (printStatus s1 = printStatus s2 ->
     forall o, computeLights (snap_phase s1) o
               = computeLights (snap_phase s2) o).
Proof.
  intros [p1 r1 t1] [p2 r2 t2].
  assert (Hfwd : printStatus (mkSnapshot p1 r1 t1)
                 = printStatus (mkSnapshot p2 r2 t2) ->
                 t1 = t2 /\ r1 = r2 /\
                 (p1 = p2 \/ (isAllRed p1 = true /\ isAllRed p2 = true))).
  { unfold printStatus; cbn. intros H.
    injection H as Ht Hp _ _ _ Hr.
    split; [exact Ht | split].
    - destruct r1, r2; try reflexivity; discriminate Hr.
    - apply phaseToStr_eq. exact Hp. }
  split; [split |].
  - exact Hfwd.
  - cbn. intros (-> & -> & [-> | [H1 H2]]); [reflexivity |].
    destruct p1; try discriminate H1; destruct p2; try discriminate H2;
      reflexivity.
  - intros H o. destruct (Hfwd H) as (_ & _ & [-> | [H1 H2]]);
      [reflexivity |].
    destruct p1; try discriminate H1; destruct p2; try discriminate H2;
      reflexivity.
Qed.

Lemma printStatus_identifies_snapshot_witness :
  printStatus (mkSnapshot All_Red_1 true 14)
    = printStatus (mkSnapshot All_Red_2 true 14) /\
  computeLights All_Red_1 uninitialised = computeLights All_Red_2 uninitialised.
Proof.
  assert (H : printStatus (mkSnapshot All_Red_1 true 14)
              = printStatus (mkSnapshot All_Red_2 true 14)) by reflexivity.
  split; [exact H |].
  exact (proj2 (printStatus_identifies_snapshot
                  (mkSnapshot All_Red_1 true 14)
                  (mkSnapshot All_Red_2 true 14)) H uninitialised).
Defined.

(** ** Who writes what *)

(** X3: the controller never writes [running], never sets the request flag
    and leaves the input thread and [main] where they stand; the input
    thread and [main] never write [phase] or [tick], never clear the request
    flag and leave the controller where it stands. *)
Theorem threads_write_disjoint_fields :
  forall (cfg : Config) (e : Event) (w : World),
    let w' := apply_event cfg e w in
    (is_ctl e = true ->
     running (shared w') = running (shared w) /\
     inp w' = inp w /\ mainpc w' = mainpc w /\
     (pedRequested (shared w) = false -> pedRequested (shared w') = false)) /\
    (is_ctl e = false ->
     phase (shared w') = phase (shared w) /\
     tick (shared w') = tick (shared w) /\
     ctl w' = ctl w /\ start w' = start w /\
     (pedRequested (shared w) = true -> pedRequested (shared w') = true)).
Proof.
  intros cfg e w w'. subst w'.
  destruct w as [[ph pr rn tk] c t i m o].
  split; intros He; destruct e as [now | r |]; cbn in He;
    try discriminate He; unfold_step.
  - destruct c; cbn; break_match; cbn; repeat split; auto;
      try congruence.
    + unfold transition; cbn. break_match; reflexivity.
    + unfold transition; cbn. intros ->.
      rewrite andb_false_r. reflexivity.
  - break_match; cbn; repeat split; auto.
  - break_match; cbn; repeat split; auto.
Qed.

Lemma threads_write_disjoint_fields_witness :
  is_ctl (InStep (Some "p")) = false /\
  phase (shared (apply_event defaultConfig (InStep (Some "p"))
                             pending_in_yellow))
    = phase (shared pending_in_yellow).
Proof.
  assert (H : is_ctl (InStep (Some "p")) = false) by reflexivity.
  split; [exact H |].
  exact (proj1 (proj2 (threads_write_disjoint_fields
                         defaultConfig (InStep (Some "p"))
                         pending_in_yellow) H)).
Defined.

(** ** Requests are kept until granted *)

Lemma pending_step (cfg : Config) (e : Event) (w : World) :
  pedRequested (shared w) = true ->
  is_grant e w = false ->
  pedRequested (shared (apply_event cfg e w)) = true /\
  ((if is_gate e w then 1 else 0)
   + walk_debt (phase (shared (apply_event cfg e w)))
   <= walk_debt (phase (shared w)))%nat.
Proof.
  destruct w as [[ph pr rn tk] c t i m o]. cbn. intros ->.
  unfold is_grant, is_gate.
  destruct e as [now | r |]; unfold_step.
  - destruct c; cbn; intros Hg; break_match; cbn; auto;
      rewrite ?andb_true_r in Hg;
      unfold transition; cbn; rewrite isAllRed_eqb, Hg; cbn;
      (split; [reflexivity | destruct ph; cbn in *; try discriminate Hg; lia]).
  - intros _. break_match; cbn; auto.
  - intros _. break_match; cbn; auto.
Qed.

Lemma grant_step (cfg : Config) (e : Event) (w : World) :
  is_grant e w = true ->
  phase (shared (apply_event cfg e w)) = Ped_Walk /\
  pedRequested (shared (apply_event cfg e w)) = false.
Proof.
  destruct w as [[ph pr rn tk] c t i m o].
  unfold is_grant, is_gate. cbn.
  destruct e as [now | r |]; try discriminate; unfold_step.
  destruct c; cbn; try discriminate.
  intros H. apply andb_true_iff in H. destruct H as [Hred ->].
  unfold transition; cbn. rewrite isAllRed_eqb, Hred. cbn. auto.
Qed.

(** X4: a request is never dropped: if a step takes the request flag from
    set to clear, the step is the controller's transition block at an
    all-red phase and it has entered [Ped_Walk]. *)
Theorem request_cleared_only_by_grant
        (cfg : Config) (e : Event) (w : World)
        (Hset : pedRequested (shared w) = true)
        (Hclr : pedRequested (shared (apply_event cfg e w)) = false) :
  is_grant e w = true /\
  isAllRed (phase (shared w)) = true /\
  phase (shared (apply_event cfg e w)) = Ped_Walk.
Proof.
  destruct (is_grant e w) eqn:Hg.
  - split; [reflexivity |].
    split; [| apply (grant_step cfg e w Hg)].
    unfold is_grant in Hg. apply andb_true_iff in Hg.
    destruct Hg as [Hg _]. apply andb_true_iff in Hg. apply Hg.
  - destruct (pending_step cfg e w Hset Hg) as [Hkeep _]. congruence.
Qed.

Lemma request_cleared_only_by_grant_witness :
  pedRequested (shared gate_with_request) = true /\
  pedRequested (shared (apply_event defaultConfig (CtlStep 0)
                                    gate_with_request)) = false /\
  phase (shared (apply_event defaultConfig (CtlStep 0) gate_with_request))
    = Ped_Walk.
Proof.
  assert (H1 : pedRequested (shared gate_with_request) = true)
    by reflexivity.
  assert (H2 : pedRequested (shared (apply_event defaultConfig (CtlStep 0)
                                                 gate_with_request)) = false)
    by reflexivity.
  split; [exact H1 | split; [exact H2 |]].
  exact (proj2 (proj2 (request_cleared_only_by_grant
                         defaultConfig (CtlStep 0) gate_with_request H1 H2))).
Defined.

Lemma pending_reaches_grant (cfg : Config) (es : list Event) :
  forall w,
    pedRequested (shared w) = true ->
    (walk_debt (phase (shared w)) <= gates cfg es w)%nat ->
    exists es1 e es2,
      es = es1 ++ e :: es2 /\ is_grant e (run cfg es1 w) = true.
Proof.
  unfold gates.
  induction es as [| e es IH]; intros w Hset Hgates; cbn in *.
  - destruct (phase (shared w)); cbn in Hgates; lia.
  - destruct (is_grant e w) eqn:Hg.
    + exists [], e, es. split; [reflexivity | exact Hg].
    + destruct (pending_step cfg e w Hset Hg) as [Hkeep Hdebt].
      destruct (IH (apply_event cfg e w) Hkeep) as (es1 & e' & es2 & -> & H').
      { destruct (is_gate e w); cbn in *; lia. }
      exists (e :: es1), e', es2. split; [reflexivity | exact H'].
Qed.

(** X5: a pending request is granted within the next four transition
    blocks, whatever the other threads do in between (three from a green
    phase, two from a yellow one, one from an all-red one, four from
    [Ped_Walk] itself): the execution contains a transition block taken at
    an all-red phase, after which the phase is [Ped_Walk] and the flag is
    clear. *)
Theorem pending_request_is_granted
        (cfg : Config) (es : list Event) (w : World)
        (Hset : pedRequested (shared w) = true)
        (Hgates : (walk_debt (phase (shared w)) <= gates cfg es w)%nat) :
  (exists es1 e es2,
      es = es1 ++ e :: es2 /\
      is_grant e (run cfg es1 w) = true /\
      phase (shared (run cfg (es1 ++ [e]) w)) = Ped_Walk /\
      pedRequested (shared (run cfg (es1 ++ [e]) w)) = false) /\
  (1 <= grants cfg es w)%nat /\
  (walk_debt (phase (shared w)) <= 4)%nat.
Proof.
  destruct (pending_reaches_grant cfg es w Hset Hgates)
    as (es1 & e & es2 & Hes & Hg).
  split; [| split].
  - exists es1, e, es2.
    assert (Hrun : run cfg (es1 ++ [e]) w
                   = apply_event cfg e (run cfg es1 w)).
    { clear. revert w. induction es1 as [| x es1 IH]; intros w; cbn; auto. }
    rewrite Hrun.
    destruct (grant_step cfg e (run cfg es1 w) Hg) as [Hp Hc]. auto.
  - subst es. unfold grants. clear Hgates Hset. revert w Hg.
    induction es1 as [| x es1 IH]; intros w Hg; cbn in *.
    + rewrite Hg. lia.
    + specialize (IH (apply_event cfg x w) Hg). lia.
  - destruct (phase (shared w)); cbn; lia.
Qed.

Lemma pending_request_is_granted_witness :
  pedRequested (shared gate_with_request) = true /\
  (1 <= grants defaultConfig [CtlStep 0] gate_with_request)%nat.
Proof.
  assert (H1 : pedRequested (shared gate_with_request) = true)
    by reflexivity.
  assert (H2 : (walk_debt (phase (shared gate_with_request))
                <= gates defaultConfig [CtlStep 0] gate_with_request)%nat)
    by (vm_compute; lia).
  split; [exact H1 |].
  exact (proj1 (proj2 (pending_request_is_granted
                         defaultConfig [CtlStep 0] gate_with_request H1 H2))).
Defined.

(** ** Invariants of every execution *)

Lemma run_invariant (cfg : Config) (P : World -> Prop) :
  (forall e w, P w -> P (apply_event cfg e w)) ->
  forall es w, P w -> P (run cfg es w).
Proof.
  intros Hstep es. induction es as [| e es IH]; intros w Hw; cbn; auto.
Qed.

Lemma threads_agree_step (cfg : Config) (e : Event) (w : World) :
  threads_agree w -> threads_agree (apply_event cfg e w).
Proof.
  destruct w as [[ph pr rn tk] c t i m o].
  unfold threads_agree; cbn. intros (Hrun & Hmain & Hret).
  destruct e as [now | r |]; unfold_step.
  - destruct rn, c; cbn; break_match; cbn;
      rewrite ?transition_running; cbn;
      intuition (try congruence; try discriminate).
  - destruct rn, i; cbn; break_match; cbn;
      intuition (try congruence; try discriminate).
  - destruct rn, i, m; cbn;
      intuition (try congruence; try discriminate).
Qed.

(** X6: in every execution from the initial world, [running] is false
    exactly when the input thread has left its loop, [main] stores only
    after that, and the controller has returned only if [running] is false:
    the controller never stops by itself. *)
Theorem controller_stops_only_after_input :
  forall (cfg : Config) (es : list Event),
    threads_agree (run cfg es initialWorld) /\
    (ctl (run cfg es initialWorld) = Returned ->
     inp (run cfg es initialWorld) = InExited).
Proof.
  intros cfg es.
  assert (H : threads_agree (run cfg es initialWorld)).
  { apply run_invariant; [apply threads_agree_step |].
    unfold threads_agree; cbn.
    repeat split; intros; discriminate. }
  split; [exact H |].
  destruct H as (Hrun & _ & Hret). intros Hc. apply Hrun, Hret, Hc.
Qed.

Lemma controller_stops_only_after_input_witness :
  ctl (run defaultConfig
           (stop_in_last_slice ++ repeat (CtlStep 0) 4) initialWorld)
    = Returned /\
  inp (run defaultConfig
           (stop_in_last_slice ++ repeat (CtlStep 0) 4) initialWorld)
    = InExited.
Proof.
  assert (H : ctl (run defaultConfig
                       (stop_in_last_slice ++ repeat (CtlStep 0) 4)
                       initialWorld) = Returned)
    by (vm_compute; reflexivity).
  split; [exact H |].
  exact (proj2 (controller_stops_only_after_input
                  defaultConfig
                  (stop_in_last_slice ++ repeat (CtlStep 0) 4)) H).
Defined.

Lemma hold_matches_phase_step (cfg : Config) (e : Event) (w : World) :
  hold_matches_phase cfg w -> hold_matches_phase cfg (apply_event cfg e w).
Proof.
  destruct w as [[ph pr rn tk] c t i m o].
  unfold hold_matches_phase.
  destruct e as [now | r |]; unfold_step;
    destruct c; cbn; intros H; break_match; cbn; bool_to_Z;
    try exact I; try exact H; try reflexivity;
    try match goal with
        | Hc : _ /\ _ |- _ =>
            destruct Hc as [Hd Hi]; subst; split; [reflexivity | lia]
        end;
    try (subst; split; [reflexivity | lia]).
Qed.

(** X7: in every execution from the initial world, the hold in progress
    is the configured duration of the current phase and the loop index
    stays between 0 and it, so that [++i] never passes [holdSec]; a
    snapshot waiting to be printed carries the current phase. *)
Theorem hold_is_duration_of_current_phase :
  forall (cfg : Config) (es : list Event),
    hold_matches_phase cfg (run cfg es initialWorld) /\
    (forall i holdSec,
        ctl (run cfg es initialWorld) = AtSleep i holdSec ->
        holdSec
        = durationForPhase cfg (phase (shared (run cfg es initialWorld))) /\
        0 <= i /\ i + 1 <= holdSec).
Proof.
  intros cfg es.
  assert (H : hold_matches_phase cfg (run cfg es initialWorld)).
  { apply run_invariant; [apply hold_matches_phase_step | exact I]. }
  split; [exact H |].
  intros i holdSec Hpc. unfold hold_matches_phase in H.
  rewrite Hpc in H. destruct H as [Hd Hi]. split; [exact Hd | lia].
Qed.

Lemma hold_is_duration_of_current_phase_witness :
  ctl stopped_in_last_slice = AtSleep 9 10 /\
  10 = durationForPhase defaultConfig (phase (shared stopped_in_last_slice)).
Proof.
  assert (H : ctl (run defaultConfig stop_in_last_slice initialWorld)
              = AtSleep 9 10) by (vm_compute; reflexivity).
  split; [exact H |].
  exact (proj1 (proj2 (hold_is_duration_of_current_phase
                         defaultConfig stop_in_last_slice) 9 10 H)).
Defined.

(** ** The printed sequence of phases *)

Lemma last_cons_default (l : list string) (y d1 d2 : string) :
  last (y :: l) d1 = last (y :: l) d2.
Proof.
  revert y. induction l as [| z l IH]; intros y; [reflexivity |].
  change (last (z :: l) d1 = last (z :: l) d2). apply IH.
Qed.

Lemma walk_preceded_snoc (l : list string) :
  forall prev x,
    walk_preceded prev (l ++ [x]) =
    walk_preceded prev l
    && (negb (String.eqb x "PED_WALK") || String.eqb (last l prev) "ALL_RED").
Proof.
  induction l as [| y l IH]; intros prev x.
  - cbn. rewrite andb_true_r. reflexivity.
  - cbn [walk_preceded app]. rewrite IH. rewrite andb_assoc.
    destruct l as [| z l']; [reflexivity |].
    change (last (y :: z :: l') prev) with (last (z :: l') prev).
    rewrite (last_cons_default l' z prev y). reflexivity.
Qed.

Lemma hd_snoc (l : list string) (d x : string) :
  hd d (l ++ [x]) = match l with [] => x | y :: _ => y end.
Proof. destruct l; reflexivity. Qed.

Lemma phaseToStr_walk (p : Phase) :
  String.eqb (phaseToStr p) "PED_WALK" = true -> p = Ped_Walk.
Proof. destruct p; cbn; intros H; try discriminate H; reflexivity. Qed.

Lemma phaseToStr_nonempty (p : Phase) : "" <> phaseToStr p.
Proof. destruct p; discriminate. Qed.

Lemma trace_inv_step (cfg : Config) (e : Event) (w : World) :
  trace_inv w -> trace_inv (apply_event cfg e w).
Proof.
  destruct w as [[ph pr rn tk] c t i m o].
  unfold trace_inv, printed_phases.
  destruct e as [now | r |]; unfold_step.
  - destruct c; cbn; break_match; cbn; fold_printed o;
      intros (Hw & Hh & Hc).
    + (* AtEntry *)
      destruct Hc as [-> ->]. repeat split; auto; discriminate.
    + repeat split; tauto.
    + repeat split; tauto.
    + repeat split; tauto.
    + (* AtPrint *)
      destruct Hc as (Hs & Hwalk & Hfirst).
      change (sl_phase (printStatus snap))
        with (phaseToStr (snap_phase snap)).
      rewrite walk_preceded_snoc, hd_snoc, last_last, Hw, Hs.
      repeat split.
      * destruct (String.eqb (phaseToStr ph) "PED_WALK") eqn:E;
          [| reflexivity].
        apply phaseToStr_walk in E. rewrite (Hwalk E). reflexivity.
      * destruct L as [| y L']; [| exact Hh].
        rewrite (Hfirst eq_refl). reflexivity.
    + auto.
    + auto.
    + auto.
    + auto.
    + (* AtGate *)
      repeat split; auto.
      * intros Hp. apply transition_enters_walk in Hp.
        destruct Hp as (Hred & _). cbn in Hred. rewrite Hc.
        destruct ph; try discriminate Hred; reflexivity.
      * intros ->. cbn in Hc. destruct (phaseToStr_nonempty ph Hc).
    + auto.
  - destruct i; cbn; break_match; cbn; fold_printed o; auto.
  - destruct i, m; cbn; fold_printed o; auto.
Qed.

Lemma walk_preceded_split (pre : list string) :
  forall prev post,
    walk_preceded prev (pre ++ "PED_WALK" :: post) = true ->
    last pre prev = "ALL_RED".
Proof.
  induction pre as [| y pre IH]; intros prev post H.
  - cbn in H. apply andb_true_iff in H. destruct H as [H _].
    apply String.eqb_eq in H. exact H.
  - cbn [app walk_preceded] in H. apply andb_true_iff in H.
    destruct H as [_ H]. specialize (IH y post H).
    destruct pre as [| z pre']; [exact IH |].
    change (last (y :: z :: pre') prev) with (last (z :: pre') prev).
    rewrite (last_cons_default pre' z prev y). exact IH.
Qed.

(** X8: in every execution from the initial world, the first status line
    printed names [NS_GREEN], and a status line naming [PED_WALK] comes
    only directly after one naming [ALL_RED]. *)
Theorem printed_walk_follows_all_red :
  forall (cfg : Config) (es : list Event),
    walk_only_after_all_red (printed_phases (run cfg es initialWorld))
      = true /\
    hd "NS_GREEN" (printed_phases (run cfg es initialWorld)) = "NS_GREEN" /\
    (forall pre post,
        printed_phases (run cfg es initialWorld)
          = pre ++ "PED_WALK" :: post ->
        last pre "" = "ALL_RED").
Proof.
  intros cfg es.
  assert (H : trace_inv (run cfg es initialWorld)).
  { apply run_invariant; [apply trace_inv_step |].
    unfold trace_inv; cbn. auto. }
  destruct H as (Hw & Hh & _).
  split; [exact Hw | split; [exact Hh |]].
  intros pre post Heq. unfold walk_only_after_all_red in Hw.
  rewrite Heq in Hw. apply (walk_preceded_split pre "" post Hw).
Qed.

Lemma printed_walk_follows_all_red_witness :
  printed_phases (run unitConfig walk_after_request initialWorld)
    = ["NS_GREEN"; "NS_YELLOW"; "ALL_RED"] ++ "PED_WALK" :: [] /\
  last ["NS_GREEN"; "NS_YELLOW"; "ALL_RED"] "" = "ALL_RED".
Proof.
  assert (H : printed_phases (run unitConfig walk_after_request initialWorld)
              = ["NS_GREEN"; "NS_YELLOW"; "ALL_RED"] ++ "PED_WALK" :: [])
    by (vm_compute; reflexivity).
  split; [exact H |].
  exact (proj2 (proj2 (printed_walk_follows_all_red
                         unitConfig walk_after_request))
               ["NS_GREEN"; "NS_YELLOW"; "ALL_RED"] [] H).
Defined.

(** ** One iteration of the controller loop *)

Lemma run_app (cfg : Config) (es1 es2 : list Event) :
  forall w, run cfg (es1 ++ es2) w = run cfg es2 (run cfg es1 w).
Proof. induction es1 as [| e es1 IH]; intros w; cbn; auto. Qed.

Lemma count_steps_app (cfg : Config) (f : Event -> World -> bool)
      (es1 es2 : list Event) :
  forall w, count_steps cfg f (es1 ++ es2) w
            = (count_steps cfg f es1 w
               + count_steps cfg f es2 (run cfg es1 w))%nat.
Proof.
  induction es1 as [| e es1 IH]; intros w; cbn; [reflexivity |].
  rewrite IH. lia.
Qed.

Lemma hold_loop_run (cfg : Config) (n : nat) :
  forall i holdSec w es,
    ctl w = AtFor i holdSec ->
    Z.to_nat (holdSec - i) = n ->
    running (shared w) = true ->
    forallb is_ctl es = true ->
    List.length es = (2 * n + 1)%nat ->
    run cfg es w = with_ctl w AtGate /\
    sleeps cfg es w = n /\ gates cfg es w = 0%nat.
Proof.
  unfold sleeps, gates.
  induction n as [| n IH]; intros i holdSec w es Hpc Hn Hrun Hes Hlen.
  - destruct es as [| e1 es]; [cbn in Hlen; lia |].
    destruct es as [| e2 es]; [| cbn in Hlen; lia].
    destruct e1 as [now | r |]; cbn in Hes; try discriminate Hes.
    destruct w as [st c t ip m o]. cbn in Hpc, Hrun. subst c.
    assert (Hge : (i <? holdSec) = false) by (apply Z.ltb_ge; lia).
    unfold_step. unfold is_sleep, is_gate. cbn. rewrite Hge. cbn. auto.
  - destruct es as [| e1 es]; [cbn in Hlen; lia |].
    destruct es as [| e2 es]; [cbn in Hlen; lia |].
    destruct e1 as [now1 | r1 |]; cbn in Hes; try discriminate Hes.
    destruct e2 as [now2 | r2 |]; cbn in Hes; try discriminate Hes.
    destruct w as [st c t ip m o]. cbn in Hpc, Hrun. subst c.
    assert (Hlt : (i <? holdSec) = true) by (apply Z.ltb_lt; lia).
    cbn in Hes. cbn in Hlen.
    specialize (IH (i + 1) holdSec
                   (mkWorld st (AtFor (i + 1) holdSec) t ip m o) es
                   eq_refl).
    destruct IH as (Hr & Hs & Hg); try assumption; try lia.
    cbn [run count_steps]. unfold_step.
    rewrite Hlt, Hrun. cbn.
    unfold_step. rewrite Hr, Hs, Hg. auto.
Qed.

(** X9: a hold that is not interrupted lasts exactly the configured number
    of one-second sleeps (none when the duration is zero or negative): from
    the start of the hold loop with [running] true, [2 * holdSec + 1]
    controller actions lead to the transition block with the shared state
    unchanged, [holdSec] sleeps done and no transition made. *)
Theorem hold_lasts_configured_seconds
        (cfg : Config) (w : World) (holdSec : Z) (es : list Event)
        (Hpc : ctl w = AtFor 0 holdSec)
        (Hrun : running (shared w) = true)
        (Hes : forallb is_ctl es = true)
        (Hlen : List.length es = (2 * Z.to_nat holdSec + 1)%nat) :
  run cfg es w = with_ctl w AtGate /\
  sleeps cfg es w = Z.to_nat holdSec /\
  gates cfg es w = 0%nat.
Proof.
  apply (hold_loop_run cfg (Z.to_nat holdSec) 0 holdSec w es); auto.
  f_equal. lia.
Qed.

Lemma hold_lasts_configured_seconds_witness :
  ctl hold_of_three = AtFor 0 3 /\
  run defaultConfig (repeat (CtlStep 0) 7) hold_of_three
    = with_ctl hold_of_three AtGate /\
  sleeps defaultConfig (repeat (CtlStep 0) 7) hold_of_three = 3%nat.
Proof.
  assert (H1 : ctl hold_of_three = AtFor 0 3) by reflexivity.
  assert (H2 : running (shared hold_of_three) = true) by reflexivity.
  assert (H3 : forallb is_ctl (repeat (CtlStep 0) 7) = true) by reflexivity.
  assert (H4 : List.length (repeat (CtlStep 0) 7)
               = (2 * Z.to_nat 3 + 1)%nat) by reflexivity.
  destruct (hold_lasts_configured_seconds
              defaultConfig hold_of_three 3 (repeat (CtlStep 0) 7)
              H1 H2 H3 H4) as (Hr & Hs & _).
  split; [exact H1 | split; [exact Hr | exact Hs]].
Defined.

(** X10: one uninterrupted iteration of the controller loop, started with
    [running] true: it stores the tick, prints one status line for the
    phase and request flag it found, sleeps exactly the configured number
    of seconds of that phase, applies the transition block once and is back
    at the loop condition. *)
Theorem iteration_prints_holds_transitions
        (cfg : Config) (w : World) (a b c d : Z) (hold : list Event)
        (Hpc : ctl w = AtWhile)
        (Hrun : running (shared w) = true)
        (Hhold : forallb is_ctl hold = true)
        (Hlen : List.length hold
                = (2 * Z.to_nat (durationForPhase cfg (phase (shared w)))
                   + 1)%nat) :
  let es := CtlStep a :: CtlStep b :: CtlStep c :: hold ++ [CtlStep d] in
  let snap := mkSnapshot (phase (shared w)) (pedRequested (shared w))
                         (elapsedSeconds (start w) b) in
  shared (run cfg es w)
    = transition (mkShared (phase (shared w)) (pedRequested (shared w))
                           true (snap_tick snap)) /\
  ctl (run cfg es w) = AtWhile /\
  out (run cfg es w) = out w ++ [OutStatus (printStatus snap)] /\
  sleeps cfg es w = Z.to_nat (durationForPhase cfg (phase (shared w))) /\
  gates cfg es w = 1%nat.
Proof.
  intros es snap.
  destruct w as [[ph pr rn tk] pc t ip m o]. cbn in Hpc, Hrun, Hlen.
  subst pc rn. cbn in snap.
  set (w3 := mkWorld (mkShared ph pr true (snap_tick snap))
                     (AtFor 0 (durationForPhase cfg ph)) t ip m
                     (o ++ [OutStatus (printStatus snap)])).
  assert (H3 : run cfg [CtlStep a; CtlStep b; CtlStep c]
                   (mkWorld (mkShared ph pr true tk) AtWhile t ip m o) = w3)
    by reflexivity.
  destruct (hold_loop_run cfg (Z.to_nat (durationForPhase cfg ph))
                          0 (durationForPhase cfg ph) w3 hold)
    as (Hr & Hs & Hg); try reflexivity; try assumption.
  { f_equal. lia. }
  unfold sleeps, gates in *.
  subst es.
  change (CtlStep a :: CtlStep b :: CtlStep c :: hold ++ [CtlStep d])
    with ([CtlStep a; CtlStep b; CtlStep c] ++ hold ++ [CtlStep d]).
  rewrite !run_app, !count_steps_app, ?run_app, H3, Hr, Hs, Hg.
  cbn. repeat split; lia.
Qed.

Lemma iteration_prints_holds_transitions_witness :
  ctl at_loop_head = AtWhile /\
  phase (shared (run defaultConfig
                     (CtlStep 0 :: CtlStep 13000000000 :: CtlStep 0
                      :: repeat (CtlStep 0) 3 ++ [CtlStep 0])
                     at_loop_head)) = Ped_Walk /\
  sleeps defaultConfig
         (CtlStep 0 :: CtlStep 13000000000 :: CtlStep 0
          :: repeat (CtlStep 0) 3 ++ [CtlStep 0]) at_loop_head = 1%nat.
Proof.
  assert (H1 : ctl at_loop_head = AtWhile) by reflexivity.
  assert (H2 : running (shared at_loop_head) = true) by reflexivity.
  assert (H3 : forallb is_ctl (repeat (CtlStep 0) 3) = true) by reflexivity.
  assert (H4 : List.length (repeat (CtlStep 0) 3)
               = (2 * Z.to_nat (durationForPhase defaultConfig
                                  (phase (shared at_loop_head))) + 1)%nat)
    by reflexivity.
  destruct (iteration_prints_holds_transitions
              defaultConfig at_loop_head 0 13000000000 0 0
              (repeat (CtlStep 0) 3) H1 H2 H3 H4)
    as (Hsh & _ & _ & Hsl & _).
  split; [exact H1 | split; [| exact Hsl]].
  rewrite Hsh. reflexivity.
Defined.

(** ** A request at every boundary *)

Lemma requestThenTransition_ns_half (st : SharedState) :
  In (phase st) [NS_Green; NS_Yellow; All_Red_1; Ped_Walk] ->
  In (phase (requestThenTransition st))
     [NS_Green; NS_Yellow; All_Red_1; Ped_Walk].
Proof.
  destruct st as [ph pr rn tk]. unfold requestThenTransition. cbn.
  intros [<- | [<- | [<- | [<- | []]]]]; cbn; auto.
Qed.

(** X11: if a request is made before every phase boundary, starting in the
    north-south half of the cycle or in [Ped_Walk], the phase only ever
    runs through [NS_Green], [NS_Yellow], [All_Red_1] and [Ped_Walk]: the
    walk granted at [All_Red_1] returns to [NS_Green], so [EW_Green],
    [EW_Yellow] and [All_Red_2] are never reached. *)
Theorem constant_requests_starve_east_west
        (st : SharedState) (n : nat)
        (Hst : In (phase st) [NS_Green; NS_Yellow; All_Red_1; Ped_Walk]) :
  In (phase (Nat.iter n requestThenTransition st))
     [NS_Green; NS_Yellow; All_Red_1; Ped_Walk] /\
  phase (Nat.iter n requestThenTransition st) <> EW_Green /\
  phase (Nat.iter n requestThenTransition st) <> EW_Yellow /\
  phase (Nat.iter n requestThenTransition st) <> All_Red_2.
Proof.
  assert (H : In (phase (Nat.iter n requestThenTransition st))
                 [NS_Green; NS_Yellow; All_Red_1; Ped_Walk]).
  { induction n as [| n IH]; [exact Hst |].
    cbn [Nat.iter nat_rect]. apply requestThenTransition_ns_half, IH. }
  split; [exact H |].
  destruct H as [<- | [<- | [<- | [<- | []]]]]; repeat split; discriminate.
Qed.

Lemma constant_requests_starve_east_west_witness :
  In (phase initialState) [NS_Green; NS_Yellow; All_Red_1; Ped_Walk] /\
  phase (Nat.iter 9 requestThenTransition initialState) <> EW_Green.
Proof.
  assert (H : In (phase initialState)
                 [NS_Green; NS_Yellow; All_Red_1; Ped_Walk])
    by (left; reflexivity).
  split; [exact H |].
  exact (proj1 (proj2 (constant_requests_starve_east_west
                         initialState 9 H))).
Defined.

(** ** The tick *)



(** ** Lines that are no command *)

(** X13: a line that is neither [p] nor one of the quit words changes
    nothing in the shared state or in where the threads stand; it prints
    the diagnostic when it is non-empty and nothing at all when it is
    empty. *)
Theorem unknown_line_changes_nothing
        (cfg : Config) (w : World) (line : string)
        (Hloop : inp w = InLoop)
        (Hrun : running (shared w) = true)
        (Hquit : isQuit line = false)
        (Hp : line <> "p") :
  same_state (apply_event cfg (InStep (Some line)) w) w /\
  out (apply_event cfg (InStep (Some line)) w)
  = (if String.eqb line ""
     then out w
     else out w ++ [OutText "[input] Unknown command. Use 'p' or 'q'."]).
Proof.
  apply String.eqb_neq in Hp.
  destruct w as [[ph pr rn tk] c t i m o]. cbn in Hloop, Hrun. subst i rn.
  unfold same_state. unfold_step. rewrite Hquit, Hp.
  destruct (String.eqb line ""); cbn; repeat split; reflexivity.
Qed.

Lemma unknown_line_changes_nothing_witness :
  inp pending_in_yellow = InLoop /\
  same_state (apply_event defaultConfig (InStep (Some "Q")) pending_in_yellow)
             pending_in_yellow.
Proof.
  assert (H1 : inp pending_in_yellow = InLoop) by reflexivity.
  assert (H2 : running (shared pending_in_yellow) = true) by reflexivity.
  assert (H3 : isQuit "Q" = false) by reflexivity.
  assert (H4 : "Q" <> "p") by discriminate.
  split; [exact H1 |].
  exact (proj1 (unknown_line_changes_nothing
                  defaultConfig pending_in_yellow "Q" H1 H2 H3 H4)).
Defined.
